(** * Transfer-Assist: the relay route of [Server.js]

    A shallow embedding of the Express handler registered with
    [app.post('/api/anthropic', ...)] and of the construction of the
    upstream client, followed by the properties of the relay contract.

    The two browser scripts ([script.js] and the college list script)
    are embedded over a small model of the page they drive. *)

From Stdlib Require Import ZArith SpecFloat.
From stdpp Require Import gmap strings list fin_maps.

Set Warnings "-register-all".

(** ** JavaScript values *)

Module JS.

(** The values the handler manipulates.  A number is an IEEE 754
    binary64, given by its specification-level form [spec_float]; an
    object is a finite map from property names to values. *)
Inductive value : Type :=
| VUndefined
| VNull
| VBool (b : bool)
| VNum (f : spec_float)
| VStr (s : string)
| VArr (l : list value)
| VObj (o : gmap string value).

(** The number written as the integer literal [z]: the binary64 nearest
    to it. *)
Definition num (z : Z) : spec_float := binary_normalize 53 1024 z 0 false.

(** Outcome of evaluating an expression: a value, or a thrown value. *)
Inductive completion (A : Type) : Type :=
| Normal (a : A)
| Throw (e : value).
Arguments Normal {A} a.
Arguments Throw {A} e.

(** ECMAScript [ToBoolean]: [undefined], [null], [false], [+0], [-0],
    [NaN] and the empty string are falsy, everything else is truthy. *)
Definition ToBoolean (v : value) : bool :=
  match v with
  | VUndefined | VNull => false
  | VBool b => b
  | VNum (S754_zero _) | VNum S754_nan => false
  | VNum _ => true
  | VStr EmptyString => false
  | VStr _ => true
  | VArr _ | VObj _ => true
  end.

(** [a || b] on already evaluated operands (in this file the right
    operand is always a literal, so evaluating it early is harmless). *)
Definition or (a b : value) : value := if ToBoolean a then a else b.

(** [undefined] and [null] are the values that have no properties. *)
Definition nullish (v : value) : bool :=
  match v with
  | VUndefined | VNull => true
  | _ => false
  end.

(** [Number.isInteger] and the order [0 < f], used to say "positive
    integer" about a number. *)
Definition is_integer (f : spec_float) : bool :=
  match f with
  | S754_zero _ => true
  | S754_finite _ m e => (0 <=? e)%Z || (Z.pos m mod 2 ^ (- e) =? 0)%Z
  | _ => false
  end.

Definition positive_integer (f : spec_float) : bool :=
  is_integer f && SFltb (S754_zero false) f.

(** What a property read yields on a value that has properties. *)
Definition member (v : value) (k : string) : value :=
  match v with
  | VObj o => default VUndefined (o !! k)
  | _ => VUndefined
  end.

Section Engine.

(** Text of the [TypeError] the engine raises when property [k] of the
    nullish value [v] is read.  The wording belongs to the engine, not
    to the program. *)
Variable engine_message : value → string → string.

Definition TypeError (v : value) (k : string) : value :=
  VObj {[ "message" := VStr (engine_message v k) ]}.

(** Property read [v.k], for the property names this program reads
    ([model], [max_tokens], [messages], [message]): an object answers
    with its entry or [undefined]; arrays and primitives have no such
    property, neither own nor inherited; [undefined] and [null] throw. *)
Definition get (v : value) (k : string) : completion value :=
  if nullish v then Throw (TypeError v k) else Normal (member v k).

End Engine.

End JS.

Import JS.

(** ** The server *)

Module Server.

(** Argument of [anthropic.messages.create]: the object literal
    [{ model: ..., max_tokens: ..., messages: ... }]. *)
Record MessageCreateParams : Type := {
  model : value;
  max_tokens : value;
  messages : value
}.

(** How the promise returned by [anthropic.messages.create] settles. *)
Inductive settled : Type :=
| Resolved (response : value)
| Rejected (error : value).

(** The upstream as the handler sees it during one request. *)
Definition upstream : Type := MessageCreateParams → settled.

(** The Express response object [res]: the status code, 200 until
    [res.status] changes it, and the value handed to [res.json], if any
    (its serialisation is Express's business). *)
Record response : Type := {
  statusCode : Z;
  sent : option value
}.

Definition fresh_res : response := {| statusCode := 200; sent := None |}.

Record request : Type := { body : value }.

(** What the handler can touch: the calls issued to the upstream and the
    lines written by [console.error], both process-wide, and the [res]
    object of the request being handled. *)
Record state : Type := {
  calls : list MessageCreateParams;
  stderr : list (string * value);
  res : response
}.

(** Computations: state passing with throw completions. *)
Definition M (A : Type) : Type := state → completion A * state.

#[global] Instance M_ret : MRet M := λ A a st, (Normal a, st).

#[global] Instance M_bind : MBind M := λ A B k m st,
  match m st with
  | (Normal a, st') => k a st'
  | (Throw e, st') => (Throw e, st')
  end.

(** [try { m } catch (error) { h error }] *)
Definition try_catch {A} (m : M A) (h : value → M A) : M A := λ st,
  match m st with
  | (Normal a, st') => (Normal a, st')
  | (Throw e, st') => h e st'
  end.

Definition lift {A} (c : completion A) : M A := λ st, (c, st).

(** [await anthropic.messages.create(p)]: the call is issued, then the
    awaited promise yields its value or throws its rejection reason. *)
Definition messages_create (create : upstream) (p : MessageCreateParams) : M value :=
  λ st,
    let st' := {| calls := calls st ++ [p]; stderr := stderr st; res := res st |} in
    match create p with
    | Resolved response => (Normal response, st')
    | Rejected error => (Throw error, st')
    end.

(** [console.error(label, v)] *)
Definition console_error (label : string) (v : value) : M unit := λ st,
  (Normal tt,
   {| calls := calls st; stderr := stderr st ++ [(label, v)]; res := res st |}).

(** [res.status(code)] *)
Definition res_status (code : Z) : M unit := λ st,
  (Normal tt,
   {| calls := calls st; stderr := stderr st;
      res := {| statusCode := code; sent := sent (res st) |} |}).

(** [res.json(v)].  The values that reach it here are parsed JSON or
    the envelope built in the [catch] block, which Express serialises
    without raising. *)
Definition res_json (v : value) : M unit := λ st,
  (Normal tt,
   {| calls := calls st; stderr := stderr st;
      res := {| statusCode := statusCode (res st); sent := Some v |} |}).

Section Process.

Variable engine_message : value → string → string.

(** The string literal on line 12.  The two copies of the server file
    differ in this literal only, so it is kept abstract. *)
Variable hardcoded_key : string.

Definition port : Z := 3000.

(** [process.env.NAME] *)
Definition process_env (env : gmap string string) (name : string) : value :=
  match env !! name with
  | Some s => VStr s
  | None => VUndefined
  end.

(** Options object of the client constructed on lines 11-13. *)
Record ClientOptions : Type := { apiKey : value }.

Definition anthropic (env : gmap string string) : ClientOptions :=
  {| apiKey := or (process_env env "ANTHROPIC_API_KEY") (VStr hardcoded_key) |}.

(** [const { model, max_tokens, messages } = req.body;] *)
Definition destructure (b : value) : M (value * value * value) :=
  model ← lift (get engine_message b "model");
  max_tokens ← lift (get engine_message b "max_tokens");
  messages ← lift (get engine_message b "messages");
  mret (model, max_tokens, messages).

(** The object literal of lines 19-23. *)
Definition create_params (model max_tokens messages : value) : MessageCreateParams :=
  {| model := or model (VStr "claude-sonnet-4-5-20250929");
     max_tokens := or max_tokens (VNum (num 1200));
     messages := messages |}.

(** The [try] block, lines 17-25. *)
Definition try_block (create : upstream) (req : request) : M unit :=
  '(model, max_tokens, messages) ← destructure (body req);
  response ← messages_create create (create_params model max_tokens messages);
  res_json response.

(** The [catch] block, lines 27-28.  [res.status(500)] is called
    before the argument of [.json] is evaluated. *)
Definition catch_block (error : value) : M unit :=
  console_error "Anthropic API error:" error;;
  res_status 500;;
  message ← lift (get engine_message error "message");
  res_json (VObj {[ "error" := message ]}).

(** The handler of [POST /api/anthropic], lines 15-30. *)
Definition handler (create : upstream) (req : request) : M unit :=
  try_catch (try_block create req) catch_block.

(** The process handling a sequence of requests, each with the
    behaviour of the upstream at that moment.  Every request gets its
    own [res]; the calls and the diagnostic stream accumulate. *)
Fixpoint serve (st : state) (reqs : list (request * upstream)) : list response * state :=
  match reqs with
  | [] => ([], st)
  | (req, create) :: rest =>
      let st1 := snd (handler create req
                        {| calls := calls st; stderr := stderr st; res := fresh_res |}) in
      let '(out, st2) := serve st1 rest in
      (res st1 :: out, st2)
  end.

End Process.

End Server.

Import Server.

(** ** The browser scripts *)

Module Browser.

(** A DOM string, as its UTF-16 code units. *)
Abbreviation DOMString := (list N) (only parsing).

(** The code units [String.prototype.trim] strips: ECMAScript's
    WhiteSpace (TAB, VT, FF, the space separators, ZWNBSP) and
    LineTerminator (LF, CR, LS, PS). *)
Definition is_white_space (c : N) : bool :=
  (c =? 9)%N || (c =? 10)%N || (c =? 11)%N || (c =? 12)%N || (c =? 13)%N
  || (c =? 32)%N || (c =? 160)%N || (c =? 5760)%N
  || ((8192 <=? c)%N && (c <=? 8202)%N)
  || (c =? 8232)%N || (c =? 8233)%N || (c =? 8239)%N || (c =? 8287)%N
  || (c =? 12288)%N || (c =? 65279)%N.

Fixpoint trim_start (s : DOMString) : DOMString :=
  match s with
  | [] => []
  | c :: rest => if is_white_space c then trim_start rest else s
  end.

Definition trim_end (s : DOMString) : DOMString :=
  reverse (trim_start (reverse s)).

(** [s.trim()] *)
Definition trim (s : DOMString) : DOMString := trim_end (trim_start s).

(** A string of white space only (the empty string included). *)
Definition blank (s : DOMString) : Prop :=
  Forall (λ c, is_white_space c = true) s.

(** A string that is not empty and neither begins nor ends with white
    space. *)
Definition tidy (s : DOMString) : Prop :=
  s ≠ []
  ∧ (∀ c, head s = Some c → is_white_space c = false)
  ∧ (∀ c, last s = Some c → is_white_space c = false).

(** The code units of an ASCII text. *)
Fixpoint units (s : string) : DOMString :=
  match s with
  | EmptyString => []
  | String a rest => Ascii.N_of_ascii a :: units rest
  end.

(** *** [script.js] *)

Module ListScript.

(** The page as the listener sees it: [input.value], the text of the
    [li] children of [ls] in document order, and the alerts shown. *)
Record page : Type := {
  input_value : DOMString;
  ls : list DOMString;
  alerts : list string
}.

(** The click listener, lines 5-15.  A string is truthy when it is not
    empty. *)
Definition click (pg : page) : page :=
  let value := trim (input_value pg) in
  match value with
  | _ :: _ =>
      {| input_value := [];
         ls := ls pg ++ [value];
         alerts := alerts pg |}
  | [] =>
      {| input_value := input_value pg;
         ls := ls pg;
         alerts := alerts pg ++ ["Please enter a list item."] |}
  end.

(** What happens to the page: the user edits the field, or clicks. *)
Inductive event : Type :=
| Typed (s : DOMString)
| Click.

Definition is_click (ev : event) : bool :=
  match ev with
  | Click => true
  | Typed _ => false
  end.

Definition step (pg : page) (ev : event) : page :=
  match ev with
  | Typed s => {| input_value := s; ls := ls pg; alerts := alerts pg |}
  | Click => click pg
  end.

Definition run (evs : list event) (pg : page) : page := fold_left step evs pg.

End ListScript.

(** *** The college list script *)

Module CollegeScript.

(** An [option] element with the two properties the script assigns
    (the values as assigned, before the DOM turns them into text). *)
Record option_element : Type := {
  textContent : value;
  option_value : value
}.

(** The page: [input.value] (the element [collegeSelect2]), the text of
    the [li] children of [ls], the global [myColleges], the alerts, the
    [option] children of [collegeSelect], and the two console streams. *)
Record page : Type := {
  input_value : DOMString;
  ls : list DOMString;
  myColleges : list DOMString;
  alerts : list string;
  collegeSelect : list option_element;
  console_log : list value;
  console_errors : list (string * value)
}.

(** The click listener, lines 7-20. *)
Definition click (pg : page) : page :=
  let value := trim (input_value pg) in
  match value with
  | _ :: _ =>
      {| input_value := [];
         ls := ls pg ++ [value];
         myColleges := myColleges pg ++ [value];
         alerts := alerts pg;
         collegeSelect := collegeSelect pg;
         console_log := console_log pg;
         console_errors := console_errors pg |}
  | [] =>
      {| input_value := input_value pg;
         ls := ls pg;
         myColleges := myColleges pg;
         alerts := alerts pg ++ ["Please enter a list item."];
         collegeSelect := collegeSelect pg;
         console_log := console_log pg;
         console_errors := console_errors pg |}
  end.

Section Engine.

(** The engine's wording, as for the server; for a value [v] that has
    properties but no [forEach] method, [engine_message v "forEach"] is
    the text of the "is not a function" error. *)
Variable engine_message : value → string → string.

(** The option built for one college, lines 30-32. *)
Definition new_option (name : value) : option_element :=
  {| textContent := name; option_value := name |}.

(** The callback of [data.forEach], lines 29-34, over the elements in
    order; a throw ends the iteration and keeps what was appended. *)
Fixpoint append_options (colleges : list value) (select : list option_element)
    : completion unit * list option_element :=
  match colleges with
  | [] => (Normal tt, select)
  | college :: rest =>
      match get engine_message college "name" with
      | Throw e => (Throw e, select)
      | Normal name => append_options rest (select ++ [new_option name])
      end
  end.

(** [data.forEach(...)]: only an array has the method. *)
Definition forEach_college (data : value) (select : list option_element)
    : completion unit * list option_element :=
  match data with
  | VArr colleges => append_options colleges select
  | _ => (Throw (TypeError engine_message data "forEach"), select)
  end.

(** [.catch((error) => console.error(...))], lines 36-38. *)
Definition catch_fetch (error : value) (pg : page) : page :=
  {| input_value := input_value pg;
     ls := ls pg;
     myColleges := myColleges pg;
     alerts := alerts pg;
     collegeSelect := collegeSelect pg;
     console_log := console_log pg;
     console_errors :=
       console_errors pg ++ [("Error fetching university data:", error)] |}.

(** The second [.then] callback, lines 25-35, followed by the [.catch]:
    [data] is logged, then the options are appended. *)
Definition then_data (data : value) (pg : page) : page :=
  let logged :=
    {| input_value := input_value pg;
       ls := ls pg;
       myColleges := myColleges pg;
       alerts := alerts pg;
       collegeSelect := collegeSelect pg;
       console_log := console_log pg ++ [data];
       console_errors := console_errors pg |} in
  match forEach_college data (collegeSelect pg) with
  | (Normal _, select) =>
      {| input_value := input_value pg;
         ls := ls pg;
         myColleges := myColleges pg;
         alerts := alerts pg;
         collegeSelect := select;
         console_log := console_log logged;
         console_errors := console_errors pg |}
  | (Throw e, select) =>
      catch_fetch e
        {| input_value := input_value pg;
           ls := ls pg;
           myColleges := myColleges pg;
           alerts := alerts pg;
           collegeSelect := select;
           console_log := console_log logged;
           console_errors := console_errors pg |}
  end.

(** The promise chain of lines 23-38, once
    [fetch("university.json").then((response) => response.json())] has
    settled. *)
Definition on_fetch (fetched : settled) (pg : page) : page :=
  match fetched with
  | Resolved data => then_data data pg
  | Rejected error => catch_fetch error pg
  end.

(** What happens to the page: the user changes the field, clicks, or
    the fetch settles. *)
Inductive event : Type :=
| Typed (s : DOMString)
| Click
| Fetched (fetched : settled).

Definition step (pg : page) (ev : event) : page :=
  match ev with
  | Typed s =>
      {| input_value := s;
         ls := ls pg;
         myColleges := myColleges pg;
         alerts := alerts pg;
         collegeSelect := collegeSelect pg;
         console_log := console_log pg;
         console_errors := console_errors pg |}
  | Click => click pg
  | Fetched fetched => on_fetch fetched pg
  end.

Definition run (evs : list event) (pg : page) : page := fold_left step evs pg.

End Engine.

End CollegeScript.

End Browser.

Import Browser.

(** ** Sample inputs *)

(** An engine wording for the concrete runs below; engines differ. *)
Definition sample_wording (v : value) (k : string) : string :=
  "Cannot read properties of " +:+
  (match v with VNull => "null" | _ => "undefined" end) +:+
  " (reading '" +:+ k +:+ "')".

Definition idle : state := {| calls := []; stderr := []; res := fresh_res |}.

(** [{"messages":[{"role":"user","content":"hi"}]}] *)
Definition hi_messages : value :=
  VArr [VObj {[ "role" := VStr "user"; "content" := VStr "hi" ]}].
Definition hi_body : value := VObj {[ "messages" := hi_messages ]}.

(** [{"model":"x","max_tokens":5,"messages":[]}] *)
Definition x5_body : value :=
  VObj {[ "model" := VStr "x"; "max_tokens" := VNum (num 5); "messages" := VArr [] ]}.

(** A stand-in for the literal of line 12. *)
Definition sample_key : string := "sk-ant-api03-elided".

(** An upstream that answers every call with the same message object. *)
Definition sample_reply : value :=
  VObj {[ "type" := VStr "message"; "role" := VStr "assistant" ]}.
Definition answering : upstream := λ _, Resolved sample_reply.

(** An upstream that rejects every call with an error carrying [msg]. *)
Definition failing (msg : string) : upstream :=
  λ _, Rejected (VObj {[ "message" := VStr msg ]}).

(** A page of [script.js] with an entry typed between spaces. *)
Definition typed_mit : ListScript.page :=
  {| ListScript.input_value := units "  MIT ";
     ListScript.ls := [units "Yale"];
     ListScript.alerts := [] |}.

(** A page of the college list script, before anything happened. *)
Definition loaded : CollegeScript.page :=
  {| CollegeScript.input_value := [];
     CollegeScript.ls := [];
     CollegeScript.myColleges := [];
     CollegeScript.alerts := [];
     CollegeScript.collegeSelect := [];
     CollegeScript.console_log := [];
     CollegeScript.console_errors := [] |}.

(** [[{"name":"MIT"},{"name":"Yale"}]] and the same with a [null] in
    between. *)
Definition mit : value := VObj {[ "name" := VStr "MIT" ]}.
Definition yale : value := VObj {[ "name" := VStr "Yale" ]}.

(** ** The handler, case by case *)

(** The argument the handler builds from a body that has properties. *)
Definition params_of_body (b : value) : MessageCreateParams :=
  create_params (member b "model") (member b "max_tokens") (member b "messages").

Definition with_call (st : state) (p : MessageCreateParams) : state :=
  {| calls := calls st ++ [p]; stderr := stderr st; res := res st |}.

(** The reply to a request handled on its own. *)
Definition reply em (create : upstream) (req : request) : response :=
  res (handler em create req idle).2.

(** [{"model":"","max_tokens":0,"messages":[]}] *)
Definition falsy_body : gmap string value :=
  {[ "model" := VStr ""; "max_tokens" := VNum (num 0); "messages" := VArr [] ]}.

(** A process that has already issued a call and logged an error. *)
Definition busy : state :=
  {| calls := [params_of_body x5_body];
     stderr := [("Anthropic API error:", VStr "earlier")];
     res := fresh_res |}.

(** The calls one request adds to the process. *)
Definition calls_of_request (req : request) : list MessageCreateParams :=
  if nullish (body req) then [] else [params_of_body (body req)].


(** The condition under which the [catch] block itself throws: the call
    was issued and the upstream rejected it with [undefined] or [null]. *)
Definition rejected_with_nullish (create : upstream) (req : request) : Prop :=
  nullish (body req) = false
  ∧ ∃ e, create (params_of_body (body req)) = Rejected e ∧ nullish e = true.



(** A body with fields the handler does not read. *)
Definition rich_body : gmap string value :=
  {[ "messages" := hi_messages;
     "system" := VStr "be brief";
     "temperature" := VNum (num 1);
     "stream" := VBool true ]}.

(** A body whose three fields have the wrong types. *)
Definition odd_body : gmap string value :=
  {[ "model" := VNum (num 7);
     "max_tokens" := VStr "many";
     "messages" := VStr "not a list" ]}.

Lemma try_block_coercible em create req st :
  nullish (body req) = false →
  try_block em create req st =
    match create (params_of_body (body req)) with
    | Resolved r => res_json r (with_call st (params_of_body (body req)))
    | Rejected e => (Throw e, with_call st (params_of_body (body req)))
    end.
Proof.
  intros Hb.
  unfold try_block, destructure, get, lift, mbind, M_bind, mret, M_ret.
  rewrite Hb. cbn beta iota.
  unfold messages_create, params_of_body, with_call.
  destruct (create _); reflexivity.
Qed.

Lemma try_block_nullish em create req st :
  nullish (body req) = true →
  try_block em create req st = (Throw (TypeError em (body req) "model"), st).
Proof.
  intros Hb.
  unfold try_block, destructure, get, lift, mbind, M_bind.
  rewrite Hb. reflexivity.
Qed.

Lemma handler_resolved em create req st r :
  nullish (body req) = false →
  create (params_of_body (body req)) = Resolved r →
  handler em create req st =
    (Normal tt,
     {| calls := calls st ++ [params_of_body (body req)];
        stderr := stderr st;
        res := {| statusCode := statusCode (res st); sent := Some r |} |}).
Proof.
  intros Hb Hr. unfold handler, try_catch.
  rewrite try_block_coercible by assumption. rewrite Hr. reflexivity.
Qed.

Lemma catch_block_coercible em error st :
  nullish error = false →
  catch_block em error st =
    (Normal tt,
     {| calls := calls st;
        stderr := stderr st ++ [("Anthropic API error:", error)];
        res := {| statusCode := 500;
                  sent := Some (VObj {[ "error" := member error "message" ]}) |} |}).
Proof.
  intros He.
  unfold catch_block, get, lift, mbind, M_bind, console_error, res_status, res_json.
  rewrite He. reflexivity.
Qed.

Lemma catch_block_nullish em error st :
  nullish error = true →
  catch_block em error st =
    (Throw (TypeError em error "message"),
     {| calls := calls st;
        stderr := stderr st ++ [("Anthropic API error:", error)];
        res := {| statusCode := 500; sent := sent (res st) |} |}).
Proof.
  intros He.
  unfold catch_block, get, lift, mbind, M_bind, console_error, res_status, res_json.
  rewrite He. reflexivity.
Qed.

Lemma handler_rejected em create req st error :
  nullish (body req) = false →
  create (params_of_body (body req)) = Rejected error →
  handler em create req st =
    catch_block em error (with_call st (params_of_body (body req))).
Proof.
  intros Hb Hr. unfold handler, try_catch.
  rewrite try_block_coercible by assumption. rewrite Hr. reflexivity.
Qed.

Lemma handler_nullish em create req st :
  nullish (body req) = true →
  handler em create req st =
    (Normal tt,
     {| calls := calls st;
        stderr := stderr st ++ [("Anthropic API error:", TypeError em (body req) "model")];
        res := {| statusCode := 500;
                  sent := Some (VObj {[ "error" := VStr (em (body req) "model") ]}) |} |}).
Proof.
  intros Hb. unfold handler, try_catch.
  rewrite try_block_nullish by assumption.
  rewrite catch_block_coercible by reflexivity.
  unfold TypeError, member. rewrite lookup_singleton_eq. reflexivity.
Qed.

(** The calls a run adds, in every case. *)
Lemma handler_calls em create req st :
  calls (handler em create req st).2 =
    if nullish (body req) then calls st
    else calls st ++ [params_of_body (body req)].
Proof.
  destruct (nullish (body req)) eqn:Hb.
  - rewrite handler_nullish by assumption. reflexivity.
  - destruct (create (params_of_body (body req))) as [r|e] eqn:Hc.
    + erewrite handler_resolved by eassumption. reflexivity.
    + erewrite handler_rejected by eassumption.
      destruct (nullish e) eqn:He.
      * rewrite catch_block_nullish by assumption. reflexivity.
      * rewrite catch_block_coercible by assumption. reflexivity.
Qed.

(** A run that added exactly the call [p] had a body with properties and
    built [p] from it. *)
Lemma handler_call_inv em create req st p :
  calls (handler em create req st).2 = calls st ++ [p] →
  nullish (body req) = false ∧ p = params_of_body (body req).
Proof.
  rewrite handler_calls. destruct (nullish (body req)); intros H.
  - exfalso. apply (f_equal length) in H. rewrite length_app in H. simpl in H. lia.
  - split; [reflexivity|]. apply app_inv_head in H. congruence.
Qed.

Lemma member_lookup (o : gmap string value) k v :
  o !! k = Some v → member (VObj o) k = v.
Proof. intros H. unfold member. rewrite H. reflexivity. Qed.

Lemma member_absent (o : gmap string value) k :
  o !! k = None → member (VObj o) k = VUndefined.
Proof. intros H. unfold member. rewrite H. reflexivity. Qed.

Lemma or_truthy a b : ToBoolean a = true → or a b = a.
Proof. intros H. unfold or. rewrite H. reflexivity. Qed.

Lemma or_falsy a b : ToBoolean a = false → or a b = b.
Proof. intros H. unfold or. rewrite H. reflexivity. Qed.

Lemma ToBoolean_nonempty s : s ≠ "" → ToBoolean (VStr s) = true.
Proof. destruct s; [congruence | reflexivity]. Qed.

Lemma ToBoolean_positive f : SFltb (S754_zero false) f = true → ToBoolean (VNum f) = true.
Proof. destruct f as [s|s| |s m e]; try reflexivity; discriminate. Qed.

Lemma ToBoolean_positive_integer f :
  positive_integer f = true → ToBoolean (VNum f) = true.
Proof.
  unfold positive_integer. intros H. apply andb_prop in H as [_ H].
  by apply ToBoolean_positive.
Qed.

(** ** Defaults *)

(** C1.  A body that contains [messages]: the handler issues one call
    carrying those messages; when [model] is omitted the call's model is
    "claude-sonnet-4-5-20250929", and when [max_tokens] is omitted its
    token limit is 1200. *)
Theorem omitted_fields_get_defaults em create (o : gmap string value) msgs st :
  o !! "messages" = Some msgs →
  ∃ p,
    calls (handler em create {| body := VObj o |} st).2 = calls st ++ [p]
    ∧ messages p = msgs
    ∧ (o !! "model" = None → model p = VStr "claude-sonnet-4-5-20250929")
    ∧ (o !! "max_tokens" = None → max_tokens p = VNum (num 1200)).
Proof.
  intros Hm. exists (params_of_body (VObj o)).
  rewrite handler_calls. cbn [body nullish].
  unfold params_of_body, create_params. cbn [model max_tokens messages].
  repeat split.
  - by apply member_lookup.
  - intros H. by rewrite (member_absent _ _ H).
  - intros H. by rewrite (member_absent _ _ H).
Qed.

(** The scenario [{"messages":[{"role":"user","content":"hi"}]}]: the
    call carries exactly the defaulted triple. *)
Lemma omitted_fields_get_defaults_hi :
  calls (handler sample_wording answering {| body := hi_body |} idle).2 =
    [ {| model := VStr "claude-sonnet-4-5-20250929";
         max_tokens := VNum (num 1200);
         messages := hi_messages |} ].
Proof.
  destruct (omitted_fields_get_defaults sample_wording answering
              {[ "messages" := hi_messages ]} hi_messages idle)
    as ([m t ms] & Hc & Hms & Hm & Ht).
  - reflexivity.
  - cbn [model max_tokens messages] in *.
    unfold hi_body. rewrite Hc, Hms, Hm, Ht; reflexivity.
Defined.

(** C5.  A body in which [model] is a non-empty string and [max_tokens]
    a positive integer: the call carries exactly the supplied values,
    with the body's [messages]; no default is substituted. *)
Theorem supplied_fields_are_kept em create (o : gmap string value) s f st :
  o !! "model" = Some (VStr s) →
  s ≠ "" →
  o !! "max_tokens" = Some (VNum f) →
  positive_integer f = true →
  calls (handler em create {| body := VObj o |} st).2 =
    calls st ++ [ {| model := VStr s;
                     max_tokens := VNum f;
                     messages := member (VObj o) "messages" |} ].
Proof.
  intros Hm Hs Ht Hf.
  rewrite handler_calls. cbn [body nullish].
  unfold params_of_body, create_params.
  rewrite (member_lookup _ _ _ Hm), (member_lookup _ _ _ Ht).
  rewrite or_truthy by (by apply ToBoolean_nonempty).
  rewrite or_truthy by (by apply ToBoolean_positive_integer).
  reflexivity.
Qed.

(** The scenario [{"model":"x","max_tokens":5,"messages":[]}]. *)
Lemma supplied_fields_are_kept_x5 :
  calls (handler sample_wording answering {| body := x5_body |} idle).2 =
    [ {| model := VStr "x"; max_tokens := VNum (num 5); messages := VArr [] |} ].
Proof.
  pose proof (supplied_fields_are_kept sample_wording answering
           {[ "model" := VStr "x"; "max_tokens" := VNum (num 5); "messages" := VArr [] ]}
           "x" (num 5) idle) as H.
  unfold x5_body. rewrite H.
  - reflexivity.
  - reflexivity.
  - discriminate.
  - reflexivity.
  - reflexivity.
Defined.

(** ** Replies *)

(** C3.  When the call the handler issued is resolved by the upstream
    with [r], the reply has status 200 and its body is [r] itself. *)
Theorem resolved_call_is_forwarded em create req st p r :
  res st = fresh_res →
  calls (handler em create req st).2 = calls st ++ [p] →
  create p = Resolved r →
  res (handler em create req st).2 = {| statusCode := 200; sent := Some r |}.
Proof.
  intros Hres Hcall Hr.
  apply handler_call_inv in Hcall as [Hb ->].
  rewrite (handler_resolved _ _ _ _ _ Hb Hr). cbn [snd res].
  rewrite Hres. reflexivity.
Qed.

Lemma resolved_call_is_forwarded_hi :
  res (handler sample_wording answering {| body := hi_body |} idle).2 =
    {| statusCode := 200; sent := Some sample_reply |}.
Proof.
  apply (resolved_call_is_forwarded sample_wording answering {| body := hi_body |} idle
           (params_of_body hi_body) sample_reply).
  - reflexivity.
  - reflexivity.
  - reflexivity.
Defined.

(** C2.  When the upstream rejects the call the handler issued, with an
    error whose [message] is the string [msg], the reply has status 500
    and its body is the object whose only entry is [error], bound to
    [msg]. *)
Theorem rejected_call_gives_envelope em create req st p error msg :
  calls (handler em create req st).2 = calls st ++ [p] →
  create p = Rejected error →
  member error "message" = VStr msg →
  res (handler em create req st).2 =
    {| statusCode := 500; sent := Some (VObj {[ "error" := VStr msg ]}) |}.
Proof.
  intros Hcall Hr Hmsg.
  apply handler_call_inv in Hcall as [Hb ->].
  rewrite (handler_rejected _ _ _ _ _ Hb Hr).
  rewrite catch_block_coercible.
  - cbn [snd res]. rewrite Hmsg. reflexivity.
  - destruct error; try reflexivity; discriminate.
Qed.

(** The scenario of an error with message "rate limited". *)
Lemma rejected_call_gives_envelope_rate_limited :
  res (handler sample_wording (failing "rate limited") {| body := hi_body |} idle).2 =
    {| statusCode := 500; sent := Some (VObj {[ "error" := VStr "rate limited" ]}) |}.
Proof.
  apply (rejected_call_gives_envelope sample_wording (failing "rate limited")
           {| body := hi_body |} idle (params_of_body hi_body)
           (VObj {[ "message" := VStr "rate limited" ]}) "rate limited").
  - reflexivity.
  - reflexivity.
  - reflexivity.
Defined.

(** ** Pass-through of [messages] *)

(** C4.  Whatever call the handler issues carries the [messages]
    property of the body as it was read, and a body object that has a
    [messages] entry does get that very value forwarded. *)
Theorem messages_are_forwarded_unmodified em create req st :
  (∀ p, calls (handler em create req st).2 = calls st ++ [p] →
        messages p = member (body req) "messages")
  ∧ (∀ (o : gmap string value) msgs,
        body req = VObj o → o !! "messages" = Some msgs →
        ∃ p, calls (handler em create req st).2 = calls st ++ [p]
             ∧ messages p = msgs).
Proof.
  split.
  - intros p Hcall. apply handler_call_inv in Hcall as [_ ->]. reflexivity.
  - intros o msgs Hb Hm. exists (params_of_body (body req)). split.
    + rewrite handler_calls, Hb. reflexivity.
    + rewrite Hb. cbn [params_of_body create_params messages].
      by apply member_lookup.
Qed.

Lemma messages_are_forwarded_unmodified_hi :
  ∃ p, calls (handler sample_wording answering {| body := hi_body |} idle).2 = [p]
       ∧ messages p = hi_messages.
Proof.
  apply (proj2 (messages_are_forwarded_unmodified sample_wording answering
                  {| body := hi_body |} idle)
           {[ "messages" := hi_messages ]} hi_messages).
  - reflexivity.
  - reflexivity.
Defined.

(** ** Number of calls *)

(** C6, as stated, fails: when [req.body] is [undefined] (no body parser
    filled it in), the destructuring on line 17 throws inside the [try]
    block, the handler replies with the 500 envelope and no call reaches
    the upstream. *)
Lemma undefined_body_issues_no_call :
  calls (handler sample_wording answering {| body := VUndefined |} idle).2 = []
  ∧ res (handler sample_wording answering {| body := VUndefined |} idle).2 =
      {| statusCode := 500;
         sent := Some (VObj {[ "error" := VStr (sample_wording VUndefined "model") ]}) |}
  ∧ ¬ ∃ p, calls (handler sample_wording answering {| body := VUndefined |} idle).2
           = calls idle ++ [p].
Proof.
  split; [reflexivity | split; [reflexivity |]].
  intros [p H]. rewrite handler_calls in H. discriminate H.
Qed.

(** C6, amended.  When [req.body] is neither [undefined] nor [null], the
    handler issues exactly one call, the one built from the body,
    whether the upstream resolves or rejects it; when [req.body] is
    [undefined] or [null] it issues none. *)
Theorem one_call_per_request_with_body em create req st :
  (nullish (body req) = false →
     calls (handler em create req st).2 = calls st ++ [params_of_body (body req)])
  ∧ (nullish (body req) = true →
     calls (handler em create req st).2 = calls st).
Proof.
  rewrite handler_calls. split; intros ->; reflexivity.
Qed.

Lemma one_call_per_request_with_body_failing :
  calls (handler sample_wording (failing "rate limited") {| body := hi_body |} idle).2 =
    [params_of_body hi_body].
Proof.
  apply (proj1 (one_call_per_request_with_body sample_wording (failing "rate limited")
                  {| body := hi_body |} idle)).
  reflexivity.
Defined.

(** ** The credential *)

Lemma api_key_truthy key (env : gmap string string) v :
  env !! "ANTHROPIC_API_KEY" = Some v → v ≠ "" →
  apiKey (anthropic key env) = VStr v.
Proof.
  intros H Hv. unfold anthropic, process_env. cbn [apiKey]. rewrite H.
  by apply or_truthy, ToBoolean_nonempty.
Qed.

Lemma api_key_fallback key (env : gmap string string) :
  env !! "ANTHROPIC_API_KEY" = None ∨ env !! "ANTHROPIC_API_KEY" = Some "" →
  apiKey (anthropic key env) = VStr key.
Proof.
  intros [H|H]; unfold anthropic, process_env; cbn [apiKey]; rewrite H; reflexivity.
Qed.

(** C7, as stated, fails: a variable that is set to the empty string is
    not used; the literal is (whatever non-empty literal line 12 holds). *)
Lemma empty_variable_is_not_used :
  ({[ "ANTHROPIC_API_KEY" := "" ]} : gmap string string) !! "ANTHROPIC_API_KEY" = Some ""
  ∧ apiKey (anthropic sample_key {[ "ANTHROPIC_API_KEY" := "" ]}) = VStr sample_key
  ∧ apiKey (anthropic sample_key {[ "ANTHROPIC_API_KEY" := "" ]}) ≠ VStr "".
Proof. split; [reflexivity | split; [reflexivity | discriminate]]. Qed.

(** C7, amended.  The credential is the value of [ANTHROPIC_API_KEY]
    when the variable is set to a non-empty string, and the hardcoded
    literal when it is unset or set to the empty string. *)
Theorem api_key_from_environment key (env : gmap string string) :
  (∀ v, env !! "ANTHROPIC_API_KEY" = Some v → v ≠ "" →
        apiKey (anthropic key env) = VStr v)
  ∧ (env !! "ANTHROPIC_API_KEY" = None ∨ env !! "ANTHROPIC_API_KEY" = Some "" →
        apiKey (anthropic key env) = VStr key).
Proof.
  split.
  - intros v. apply api_key_truthy.
  - apply api_key_fallback.
Qed.

Lemma api_key_from_environment_set :
  apiKey (anthropic sample_key {[ "ANTHROPIC_API_KEY" := "from-env" ]}) = VStr "from-env".
Proof.
  apply (proj1 (api_key_from_environment sample_key {[ "ANTHROPIC_API_KEY" := "from-env" ]})).
  - reflexivity.
  - discriminate.
Defined.

(** ** Independence of requests *)

(** The reply does not look at the calls issued or the lines logged so
    far. *)
Lemma handler_res_reply em create req st :
  res st = fresh_res →
  res (handler em create req st).2 = reply em create req.
Proof.
  intros Hres. unfold reply.
  destruct (nullish (body req)) eqn:Hb.
  - rewrite !handler_nullish by assumption. reflexivity.
  - destruct (create (params_of_body (body req))) as [r|e] eqn:Hc.
    + rewrite !(handler_resolved _ _ _ _ _ Hb Hc). cbn [snd res].
      rewrite Hres. reflexivity.
    + rewrite !(handler_rejected _ _ _ _ _ Hb Hc).
      destruct (nullish e) eqn:He.
      * rewrite !catch_block_nullish by assumption. cbn [snd res with_call].
        rewrite Hres. reflexivity.
      * rewrite !catch_block_coercible by assumption. reflexivity.
Qed.

(** The reply looks at the upstream only through the outcome of the one
    call it issues. *)
Lemma reply_same_outcome em create1 create2 req :
  (nullish (body req) = false →
     create1 (params_of_body (body req)) = create2 (params_of_body (body req))) →
  reply em create1 req = reply em create2 req.
Proof.
  intros Hout. unfold reply.
  destruct (nullish (body req)) eqn:Hb.
  - rewrite !handler_nullish by assumption. reflexivity.
  - specialize (Hout eq_refl).
    destruct (create2 (params_of_body (body req))) as [r|e] eqn:Hc.
    + rewrite (handler_resolved _ _ _ _ _ Hb Hout), (handler_resolved _ _ _ _ _ Hb Hc).
      reflexivity.
    + rewrite (handler_rejected _ _ _ _ _ Hb Hout), (handler_rejected _ _ _ _ _ Hb Hc).
      reflexivity.
Qed.

Lemma serve_replies em st reqs :
  (serve em st reqs).1 = map (λ rc, reply em rc.2 rc.1) reqs.
Proof.
  revert st. induction reqs as [|[req create] rest IH]; intros st.
  - reflexivity.
  - cbn [serve]. specialize (IH (handler em create req
        {| calls := calls st; stderr := stderr st; res := fresh_res |}).2).
    destruct (serve em _ rest) as [out st2]. cbn [fst snd map] in *.
    rewrite IH. f_equal. by apply handler_res_reply.
Qed.

(** C8.  Take two histories of the process, whatever their earlier
    state and their other requests.  If the same request occurs in both,
    and the upstream settles the call built from it in the same way, the
    two replies (status and body) are the same. *)
Theorem replies_depend_on_own_request_only
    em st1 st2 (reqs1 reqs2 : list (request * upstream)) i j req create1 create2 :
  reqs1 !! i = Some (req, create1) →
  reqs2 !! j = Some (req, create2) →
  (nullish (body req) = false →
     create1 (params_of_body (body req)) = create2 (params_of_body (body req))) →
  (serve em st1 reqs1).1 !! i = Some (reply em create1 req)
  ∧ (serve em st1 reqs1).1 !! i = (serve em st2 reqs2).1 !! j.
Proof.
  intros H1 H2 Hout.
  rewrite !serve_replies, !list_lookup_fmap. unfold upstream in *.
  rewrite H1, H2. cbn [fmap option_fmap option_map fst snd].
  split; [reflexivity|]. f_equal. by apply reply_same_outcome.
Qed.

Lemma replies_depend_on_own_request_only_traffic :
  (serve sample_wording idle
     [({| body := x5_body |}, answering);
      ({| body := hi_body |}, failing "rate limited")]).1 !! 1 =
  (serve sample_wording busy
     [({| body := hi_body |}, failing "rate limited")]).1 !! 0.
Proof.
  apply (replies_depend_on_own_request_only sample_wording idle busy
           [({| body := x5_body |}, answering);
            ({| body := hi_body |}, failing "rate limited")]
           [({| body := hi_body |}, failing "rate limited")]
           1 0 {| body := hi_body |} (failing "rate limited") (failing "rate limited")).
  - reflexivity.
  - reflexivity.
  - reflexivity.
Defined.

(** ** Falsy fields *)

(** C9.  A [model] or [max_tokens] that is present but falsy is replaced
    by the default; in particular [max_tokens: 0] gives 1200 and
    [model: ""] gives "claude-sonnet-4-5-20250929". *)
Theorem falsy_fields_get_defaults em create (o : gmap string value) st :
  ∃ p,
    calls (handler em create {| body := VObj o |} st).2 = calls st ++ [p]
    ∧ (∀ v, o !! "model" = Some v → ToBoolean v = false →
            model p = VStr "claude-sonnet-4-5-20250929")
    ∧ (∀ v, o !! "max_tokens" = Some v → ToBoolean v = false →
            max_tokens p = VNum (num 1200))
    ∧ (o !! "model" = Some (VStr "") → model p = VStr "claude-sonnet-4-5-20250929")
    ∧ (o !! "max_tokens" = Some (VNum (num 0)) → max_tokens p = VNum (num 1200)).
Proof.
  exists (params_of_body (VObj o)).
  assert (Hm : ∀ v, o !! "model" = Some v → ToBoolean v = false →
            model (params_of_body (VObj o)) = VStr "claude-sonnet-4-5-20250929").
  { intros v Hv Hf. cbn [params_of_body create_params model].
    rewrite (member_lookup _ _ _ Hv). by apply or_falsy. }
  assert (Ht : ∀ v, o !! "max_tokens" = Some v → ToBoolean v = false →
            max_tokens (params_of_body (VObj o)) = VNum (num 1200)).
  { intros v Hv Hf. cbn [params_of_body create_params max_tokens].
    rewrite (member_lookup _ _ _ Hv). by apply or_falsy. }
  rewrite handler_calls. cbn [body nullish].
  repeat split; try assumption.
  - intros H. by apply (Hm _ H).
  - intros H. by apply (Ht _ H).
Qed.

Lemma falsy_fields_get_defaults_zero_and_empty :
  ∃ p,
    calls (handler sample_wording answering {| body := VObj falsy_body |} idle).2 = [p]
    ∧ model p = VStr "claude-sonnet-4-5-20250929"
    ∧ max_tokens p = VNum (num 1200).
Proof.
  destruct (falsy_fields_get_defaults sample_wording answering falsy_body idle)
    as (p & Hc & _ & _ & Hm & Ht).
  exists p. split; [exact Hc | split].
  - apply Hm. reflexivity.
  - apply Ht. reflexivity.
Defined.

(** ** A body without [messages] *)

(** C10.  A body object without [messages] is not turned away: the call
    is issued all the same, with [messages] undefined, and the reply is
    whatever the upstream's outcome makes it: the forwarded result, or
    the 500 envelope around the upstream's own error message. *)
Theorem missing_messages_reaches_upstream em create (o : gmap string value) st :
  o !! "messages" = None →
  res st = fresh_res →
  ∃ p,
    calls (handler em create {| body := VObj o |} st).2 = calls st ++ [p]
    ∧ messages p = VUndefined
    ∧ (∀ r, create p = Resolved r →
            res (handler em create {| body := VObj o |} st).2 =
              {| statusCode := 200; sent := Some r |})
    ∧ (∀ error msg, create p = Rejected error → member error "message" = VStr msg →
            res (handler em create {| body := VObj o |} st).2 =
              {| statusCode := 500; sent := Some (VObj {[ "error" := VStr msg ]}) |}).
Proof.
  intros Hm Hres. exists (params_of_body (VObj o)).
  split; [by rewrite handler_calls | split].
  { cbn [params_of_body create_params messages]. by apply member_absent. }
  split.
  - intros r Hr.
    rewrite (handler_resolved em create {| body := VObj o |} st r eq_refl Hr).
    cbn [snd res]. rewrite Hres. reflexivity.
  - intros error msg Hr Hmsg.
    rewrite (handler_rejected em create {| body := VObj o |} st error eq_refl Hr).
    rewrite catch_block_coercible.
    + cbn [snd res]. rewrite Hmsg. reflexivity.
    + destruct error; try reflexivity; discriminate.
Qed.

(** [{"model":"x"}] against an upstream that insists on [messages]. *)
Lemma missing_messages_reaches_upstream_required :
  ∃ p,
    calls (handler sample_wording (failing "messages: Field required")
             {| body := VObj {[ "model" := VStr "x" ]} |} idle).2 = [p]
    ∧ messages p = VUndefined
    ∧ res (handler sample_wording (failing "messages: Field required")
             {| body := VObj {[ "model" := VStr "x" ]} |} idle).2 =
        {| statusCode := 500;
           sent := Some (VObj {[ "error" := VStr "messages: Field required" ]}) |}.
Proof.
  destruct (missing_messages_reaches_upstream sample_wording
              (failing "messages: Field required") {[ "model" := VStr "x" ]} idle)
    as (p & Hc & Hm & _ & Hrej).
  - reflexivity.
  - reflexivity.
  - exists p. split; [exact Hc | split; [exact Hm |]].
    apply (Hrej (VObj {[ "message" := VStr "messages: Field required" ]})).
    + reflexivity.
    + reflexivity.
Defined.

(** * Further properties of the handler *)

Lemma or_default_truthy a b : ToBoolean b = true → ToBoolean (or a b) = true.
Proof. intros Hb. unfold or. destruct (ToBoolean a) eqn:Ha; assumption. Qed.

Lemma nullish_member_string e k msg : member e k = VStr msg → nullish e = false.
Proof. destruct e; try reflexivity; discriminate. Qed.

(** The whole run on a body that has properties, by the outcome of the
    call. *)
Lemma handler_coercible em create req st :
  nullish (body req) = false →
  handler em create req st =
    match create (params_of_body (body req)) with
    | Resolved r => res_json r (with_call st (params_of_body (body req)))
    | Rejected e => catch_block em e (with_call st (params_of_body (body req)))
    end.
Proof.
  intros Hb. unfold handler, try_catch.
  rewrite try_block_coercible by assumption.
  destruct (create _); reflexivity.
Qed.

(** The upstream is never handed a falsy [model] or [max_tokens]: every
    call the handler issues carries a truthy value in both. *)
Theorem issued_params_are_truthy em create req st p :
  calls (handler em create req st).2 = calls st ++ [p] →
  ToBoolean (model p) = true ∧ ToBoolean (max_tokens p) = true.
Proof.
  intros Hcall. apply handler_call_inv in Hcall as [_ ->].
  cbn [params_of_body create_params model max_tokens].
  split; by apply or_default_truthy.
Qed.

Lemma issued_params_are_truthy_falsy_body :
  ToBoolean (model (params_of_body (VObj falsy_body))) = true
  ∧ ToBoolean (max_tokens (params_of_body (VObj falsy_body))) = true.
Proof.
  apply (issued_params_are_truthy sample_wording answering
           {| body := VObj falsy_body |} idle (params_of_body (VObj falsy_body))).
  reflexivity.
Defined.

(** The handler checks no types: whatever truthy values [model] and
    [max_tokens] hold, and whatever [messages] holds, they are handed to
    the upstream as they are. *)
Theorem truthy_fields_are_forwarded_unchecked
    em create (o : gmap string value) vm vt st :
  o !! "model" = Some vm → ToBoolean vm = true →
  o !! "max_tokens" = Some vt → ToBoolean vt = true →
  calls (handler em create {| body := VObj o |} st).2 =
    calls st ++ [ {| model := vm; max_tokens := vt;
                     messages := member (VObj o) "messages" |} ].
Proof.
  intros Hm Hmt Ht Htt.
  rewrite handler_calls. cbn [body nullish].
  unfold params_of_body, create_params.
  rewrite (member_lookup _ _ _ Hm), (member_lookup _ _ _ Ht).
  rewrite !or_truthy by assumption. reflexivity.
Qed.

Lemma truthy_fields_are_forwarded_unchecked_odd :
  calls (handler sample_wording answering {| body := VObj odd_body |} idle).2 =
    [ {| model := VNum (num 7); max_tokens := VStr "many";
         messages := VStr "not a list" |} ].
Proof.
  pose proof (truthy_fields_are_forwarded_unchecked sample_wording answering
                odd_body (VNum (num 7)) (VStr "many") idle) as H.
  rewrite H.
  - reflexivity.
  - reflexivity.
  - reflexivity.
  - reflexivity.
  - reflexivity.
Defined.

(** Only [model], [max_tokens] and [messages] are read: two body objects
    that agree on these three are handled identically (same calls, same
    log, same reply, same completion), whatever else they contain. *)
Theorem other_body_fields_are_ignored em create (o1 o2 : gmap string value) st :
  o1 !! "model" = o2 !! "model" →
  o1 !! "max_tokens" = o2 !! "max_tokens" →
  o1 !! "messages" = o2 !! "messages" →
  handler em create {| body := VObj o1 |} st = handler em create {| body := VObj o2 |} st.
Proof.
  intros Hm Ht Hs.
  rewrite !handler_coercible by reflexivity. cbn [body].
  assert (params_of_body (VObj o1) = params_of_body (VObj o2)) as ->; [|reflexivity].
  unfold params_of_body, member. rewrite Hm, Ht, Hs. reflexivity.
Qed.

Lemma other_body_fields_are_ignored_rich :
  handler sample_wording answering {| body := VObj rich_body |} idle =
  handler sample_wording answering {| body := hi_body |} idle.
Proof.
  apply (other_body_fields_are_ignored sample_wording answering
           rich_body {[ "messages" := hi_messages ]} idle).
  - reflexivity.
  - reflexivity.
  - reflexivity.
Defined.

(** A body that is not an object but has properties (a JSON array is the
    case the body parser lets through) is accepted: the call goes out
    with both defaults and [messages] undefined. *)
Theorem non_object_body_gets_defaults em create b st :
  nullish b = false →
  (∀ o, b ≠ VObj o) →
  calls (handler em create {| body := b |} st).2 =
    calls st ++ [ {| model := VStr "claude-sonnet-4-5-20250929";
                     max_tokens := VNum (num 1200);
                     messages := VUndefined |} ].
Proof.
  intros Hb Hobj. rewrite handler_calls. cbn [body]. rewrite Hb.
  destruct b; try reflexivity. exfalso. by eapply Hobj.
Qed.

Lemma non_object_body_gets_defaults_array :
  calls (handler sample_wording answering {| body := VArr [VNum (num 1)] |} idle).2 =
    [ {| model := VStr "claude-sonnet-4-5-20250929";
         max_tokens := VNum (num 1200);
         messages := VUndefined |} ].
Proof.
  apply (non_object_body_gets_defaults sample_wording answering
           (VArr [VNum (num 1)]) idle).
  - reflexivity.
  - discriminate.
Defined.

(** ** Status, log and completion *)

(** What a run from a fresh [res] leaves behind, in the three cases
    other than a bare rejection. *)
Lemma handler_rejected_coercible em create req st e :
  nullish (body req) = false →
  create (params_of_body (body req)) = Rejected e →
  nullish e = false →
  handler em create req st =
    (Normal tt,
     {| calls := calls st ++ [params_of_body (body req)];
        stderr := stderr st ++ [("Anthropic API error:", e)];
        res := {| statusCode := 500;
                  sent := Some (VObj {[ "error" := member e "message" ]}) |} |}).
Proof.
  intros Hb Hc He. rewrite (handler_rejected _ _ _ _ _ Hb Hc).
  by rewrite catch_block_coercible.
Qed.

Lemma handler_rejected_nullish em create req st e :
  nullish (body req) = false →
  create (params_of_body (body req)) = Rejected e →
  nullish e = true →
  handler em create req st =
    (Throw (TypeError em e "message"),
     {| calls := calls st ++ [params_of_body (body req)];
        stderr := stderr st ++ [("Anthropic API error:", e)];
        res := {| statusCode := 500; sent := sent (res st) |} |}).
Proof.
  intros Hb Hc He. rewrite (handler_rejected _ _ _ _ _ Hb Hc).
  by rewrite catch_block_nullish.
Qed.

(** Case analysis on a run: the four shapes it can take. *)
Lemma handler_cases (create : upstream) (req : request) :
  (nullish (body req) = true)
  ∨ (nullish (body req) = false
     ∧ ∃ r, create (params_of_body (body req)) = Resolved r)
  ∨ (nullish (body req) = false
     ∧ ∃ e, create (params_of_body (body req)) = Rejected e ∧ nullish e = false)
  ∨ rejected_with_nullish create req.
Proof.
  unfold rejected_with_nullish.
  destruct (nullish (body req)) eqn:Hb; [by left | right].
  destruct (create (params_of_body (body req))) as [r|e] eqn:Hc.
  - left. eauto.
  - right. destruct (nullish e) eqn:He; [right | left]; eauto.
Qed.

(** The reply's status is 200 exactly when the call was issued and the
    upstream resolved it; in every other case it is 500. *)
Theorem status_is_200_iff_resolved em create req st :
  res st = fresh_res →
  (statusCode (res (handler em create req st).2) = 200%Z
   ↔ nullish (body req) = false
     ∧ ∃ r, create (params_of_body (body req)) = Resolved r)
  ∧ (statusCode (res (handler em create req st).2) = 200%Z
     ∨ statusCode (res (handler em create req st).2) = 500%Z).
Proof.
  intros Hres.
  destruct (handler_cases create req)
    as [Hb | [[Hb [r Hr]] | [[Hb (e & Hc & He)] | [Hb (e & Hc & He)]]]].
  - rewrite handler_nullish by assumption. cbn [snd res statusCode].
    split; [|by right]. split; [discriminate | intros [? _]; congruence].
  - rewrite (handler_resolved _ _ _ _ _ Hb Hr). cbn [snd res statusCode].
    rewrite Hres. cbn [statusCode fresh_res].
    split; [|by left]. split; [eauto | reflexivity].
  - rewrite (handler_rejected_coercible _ _ _ _ _ Hb Hc He). cbn [snd res statusCode].
    split; [|by right]. split; [discriminate | intros [_ [r Hr]]; congruence].
  - rewrite (handler_rejected_nullish _ _ _ _ _ Hb Hc He). cbn [snd res statusCode].
    split; [|by right]. split; [discriminate | intros [_ [r Hr]]; congruence].
Qed.

Lemma status_is_200_iff_resolved_rate_limited :
  statusCode (res (handler sample_wording (failing "rate limited")
                     {| body := hi_body |} idle).2) ≠ 200%Z.
Proof.
  intros H.
  apply (proj1 (status_is_200_iff_resolved sample_wording (failing "rate limited")
                  {| body := hi_body |} idle eq_refl)) in H as [_ [r Hr]].
  discriminate Hr.
Defined.

(** A run that ends in success writes nothing to the diagnostic stream;
    any other run writes exactly one line, labelled
    "Anthropic API error:" and carrying the caught value. *)
Theorem failures_are_logged_once em create req st :
  (∀ r, nullish (body req) = false →
        create (params_of_body (body req)) = Resolved r →
        stderr (handler em create req st).2 = stderr st)
  ∧ (∀ e, nullish (body req) = false →
        create (params_of_body (body req)) = Rejected e →
        stderr (handler em create req st).2 =
          stderr st ++ [("Anthropic API error:", e)])
  ∧ (nullish (body req) = true →
        stderr (handler em create req st).2 =
          stderr st ++ [("Anthropic API error:", TypeError em (body req) "model")]).
Proof.
  split; [|split].
  - intros r Hb Hr. by rewrite (handler_resolved _ _ _ _ _ Hb Hr).
  - intros e Hb Hc. destruct (nullish e) eqn:He.
    + by rewrite (handler_rejected_nullish _ _ _ _ _ Hb Hc He).
    + by rewrite (handler_rejected_coercible _ _ _ _ _ Hb Hc He).
  - intros Hb. by rewrite handler_nullish.
Qed.

Lemma failures_are_logged_once_rate_limited :
  stderr (handler sample_wording (failing "rate limited") {| body := hi_body |} idle).2 =
    [("Anthropic API error:", VObj {[ "message" := VStr "rate limited" ]})].
Proof.
  apply (proj1 (proj2 (failures_are_logged_once sample_wording (failing "rate limited")
                         {| body := hi_body |} idle))).
  - reflexivity.
  - reflexivity.
Defined.





(** ** The process over many requests *)

Lemma serve_cons em st req create rest :
  serve em st ((req, create) :: rest) =
    let st1 := (handler em create req
                  {| calls := calls st; stderr := stderr st; res := fresh_res |}).2 in
    (res st1 :: (serve em st1 rest).1, (serve em st1 rest).2).
Proof. cbn [serve]. destruct (serve em _ rest). reflexivity. Qed.


(** The traffic to the upstream is a function of the requests alone: one
    call for each request whose body has properties, in arrival order,
    built from that body, whatever the upstream answered meanwhile.  So
    the process never issues more calls than it received requests. *)
Theorem serve_issues_one_call_per_body em st (reqs : list (request * upstream)) :
  calls (serve em st reqs).2 =
    calls st ++ concat (map (λ rc, calls_of_request rc.1) reqs)
  ∧ length (calls (serve em st reqs).2) ≤ length (calls st) + length reqs.
Proof.
  revert st. induction reqs as [|[req create] rest IH]; intros st.
  - cbn. rewrite app_nil_r. split; [reflexivity | lia].
  - rewrite serve_cons. cbn zeta. cbn [snd].
    destruct (IH (handler em create req
                    {| calls := calls st; stderr := stderr st; res := fresh_res |}).2)
      as [IHc IHl].
    rewrite handler_calls in IHc, IHl. cbn [body calls] in IHc, IHl.
    split.
    + rewrite IHc. cbn [map concat fst]. unfold calls_of_request at 2.
      destruct (nullish (body req)); [reflexivity | by rewrite <- app_assoc].
    + destruct (nullish (body req)); cbn [length] in *;
        rewrite ?length_app in IHl; cbn [length] in IHl; lia.
Qed.


(** ** The credential, continued *)

(** Whatever the environment holds, the client is constructed with a
    non-empty string as its key, provided the literal of line 12 is not
    empty. *)
Theorem api_key_is_a_nonempty_string key (env : gmap string string) :
  key ≠ "" →
  ∃ s, apiKey (anthropic key env) = VStr s ∧ s ≠ "".
Proof.
  intros Hkey.
  destruct (env !! "ANTHROPIC_API_KEY") as [v|] eqn:Hv.
  - destruct (decide (v = "")) as [->|Hne].
    + exists key. split; [apply api_key_fallback; by right | assumption].
    + exists v. split; [by apply api_key_truthy | assumption].
  - exists key. split; [apply api_key_fallback; by left | assumption].
Qed.

Lemma api_key_is_a_nonempty_string_unset :
  ∃ s, apiKey (anthropic sample_key ∅) = VStr s ∧ s ≠ "".
Proof.
  apply (api_key_is_a_nonempty_string sample_key ∅). discriminate.
Defined.

(** * The browser scripts *)

(** ** [trim] *)

Lemma trim_start_split s : ∃ ws, blank ws ∧ s = ws ++ trim_start s.
Proof.
  induction s as [|c s (ws & Hws & Hs)].
  - exists []. split; [constructor | reflexivity].
  - cbn [trim_start]. destruct (is_white_space c) eqn:Hc.
    + exists (c :: ws). split; [by constructor | cbn; by rewrite <- Hs].
    + exists []. split; [constructor | reflexivity].
Qed.

Lemma trim_start_head s c : head (trim_start s) = Some c → is_white_space c = false.
Proof.
  induction s as [|d s IH]; cbn [trim_start]; [discriminate|].
  destruct (is_white_space d) eqn:Hd; [exact IH|].
  cbn. intros [= <-]. exact Hd.
Qed.

Lemma trim_start_fixed s :
  (∀ c, head s = Some c → is_white_space c = false) → trim_start s = s.
Proof.
  destruct s as [|c s]; [reflexivity|]. intros H. cbn [trim_start].
  by rewrite (H c eq_refl).
Qed.

Lemma trim_start_nil s : trim_start s = [] ↔ blank s.
Proof.
  split.
  - intros H. destruct (trim_start_split s) as (ws & Hws & Hs).
    rewrite H, app_nil_r in Hs. by rewrite Hs.
  - induction 1 as [|c s Hc _ IH]; [reflexivity|]. cbn [trim_start]. by rewrite Hc.
Qed.

Lemma trim_end_nil s : trim_end s = [] ↔ blank s.
Proof.
  unfold trim_end. split.
  - intros H. apply (f_equal reverse) in H. rewrite reverse_involutive in H.
    change (reverse []) with (@nil N) in H.
    apply trim_start_nil in H. unfold blank in *.
    by apply (proj1 (Forall_reverse _ s)).
  - intros H. apply (proj2 (Forall_reverse _ s)) in H.
    apply trim_start_nil in H. by rewrite H.
Qed.

(** [trim_end] leaves a prefix. *)
Lemma trim_end_split s : ∃ ws, blank ws ∧ s = trim_end s ++ ws.
Proof.
  unfold trim_end. destruct (trim_start_split (reverse s)) as (ws & Hws & Hs).
  exists (reverse ws). split; [by apply (proj2 (Forall_reverse _ ws))|].
  rewrite <- reverse_app, <- Hs. by rewrite reverse_involutive.
Qed.

Lemma trim_end_last s c : last (trim_end s) = Some c → is_white_space c = false.
Proof.
  unfold trim_end. rewrite last_reverse. apply trim_start_head.
Qed.

Lemma trim_nil s : trim s = [] ↔ blank s.
Proof.
  unfold trim. rewrite trim_end_nil. split.
  - intros H. destruct (trim_start_split s) as (ws & Hws & Hs).
    rewrite Hs. by apply Forall_app.
  - intros H. apply trim_start_nil in H. rewrite H. constructor.
Qed.

Lemma trim_tidy s : trim s ≠ [] → tidy (trim s).
Proof.
  intros Hne. split; [assumption | split].
  - intros c Hc. unfold trim in *.
    destruct (trim_end_split (trim_start s)) as (ws & _ & Hs).
    apply (trim_start_head s c). rewrite Hs.
    destruct (trim_end (trim_start s)); [done | exact Hc].
  - intros c. unfold trim. apply trim_end_last.
Qed.

(** ** [script.js]: the click listener *)

Lemma list_click_blank pg :
  blank (ListScript.input_value pg) →
  ListScript.click pg =
    {| ListScript.input_value := ListScript.input_value pg;
       ListScript.ls := ListScript.ls pg;
       ListScript.alerts := ListScript.alerts pg ++ ["Please enter a list item."] |}.
Proof.
  intros H. apply trim_nil in H. unfold ListScript.click. by rewrite H.
Qed.

Lemma list_click_filled pg :
  ¬ blank (ListScript.input_value pg) →
  ListScript.click pg =
    {| ListScript.input_value := [];
       ListScript.ls := ListScript.ls pg ++ [trim (ListScript.input_value pg)];
       ListScript.alerts := ListScript.alerts pg |}.
Proof.
  intros H. unfold ListScript.click.
  destruct (trim (ListScript.input_value pg)) eqn:Ht; [|reflexivity].
  exfalso. apply H. by apply trim_nil.
Qed.

Lemma blank_dec s : {blank s} + {¬ blank s}.
Proof. unfold blank. apply Forall_dec. intros c. apply bool_eq_dec. Qed.

(** A field that holds white space only (spaces, tabs, line breaks, the
    other Unicode spaces, or nothing) is refused: the list and the field
    stay as they are and one alert is shown.  Any other content is
    added to the end of the list with the white space at both ends
    removed, and the field is emptied, without an alert. *)
Theorem click_adds_item_unless_blank pg :
  (blank (ListScript.input_value pg) →
     ListScript.click pg =
       {| ListScript.input_value := ListScript.input_value pg;
          ListScript.ls := ListScript.ls pg;
          ListScript.alerts := ListScript.alerts pg ++ ["Please enter a list item."] |})
  ∧ (¬ blank (ListScript.input_value pg) →
     ListScript.click pg =
       {| ListScript.input_value := [];
          ListScript.ls := ListScript.ls pg ++ [trim (ListScript.input_value pg)];
          ListScript.alerts := ListScript.alerts pg |}
     ∧ tidy (trim (ListScript.input_value pg))).
Proof.
  split; [apply list_click_blank|].
  intros H. split; [by apply list_click_filled|].
  apply trim_tidy. intros Ht. apply H. by apply trim_nil.
Qed.

Lemma click_adds_item_unless_blank_mit :
  ListScript.click typed_mit =
    {| ListScript.input_value := [];
       ListScript.ls := [units "Yale"; units "MIT"];
       ListScript.alerts := [] |}.
Proof.
  destruct (proj2 (click_adds_item_unless_blank typed_mit)) as [H _].
  - intros Hb. apply trim_nil in Hb. discriminate Hb.
  - rewrite H. reflexivity.
Defined.

(** A second click right after a click never adds an item: either the
    first click emptied the field or it left a blank one, and the second
    click only alerts. *)
Theorem second_click_adds_nothing pg :
  ListScript.ls (ListScript.click (ListScript.click pg)) =
    ListScript.ls (ListScript.click pg)
  ∧ ListScript.alerts (ListScript.click (ListScript.click pg)) =
      ListScript.alerts (ListScript.click pg) ++ ["Please enter a list item."].
Proof.
  assert (blank (ListScript.input_value (ListScript.click pg))) as Hb.
  { destruct (blank_dec (ListScript.input_value pg)) as [H|H].
    - by rewrite list_click_blank.
    - rewrite list_click_filled by assumption. constructor. }
  rewrite (list_click_blank _ Hb). by split.
Qed.

(** Over any sequence of edits and clicks the list only grows, and every
    item added is non-empty and free of white space at both ends. *)
Theorem list_grows_by_tidy_items evs pg :
  ∃ added,
    ListScript.ls (ListScript.run evs pg) = ListScript.ls pg ++ added
    ∧ Forall tidy added.
Proof.
  revert pg. induction evs as [|ev evs IH]; intros pg.
  - exists []. split; [by rewrite app_nil_r | constructor].
  - cbn [ListScript.run fold_left].
    destruct (IH (ListScript.step pg ev)) as (added & Hls & Htidy).
    unfold ListScript.run in Hls. rewrite Hls.
    destruct ev as [s|]; cbn [ListScript.step ListScript.ls].
    + by exists added.
    + destruct (blank_dec (ListScript.input_value pg)) as [H|H].
      * rewrite list_click_blank by assumption. by exists added.
      * rewrite list_click_filled by assumption. cbn [ListScript.ls].
        exists (trim (ListScript.input_value pg) :: added).
        split; [by rewrite <- app_assoc|].
        constructor; [|assumption].
        apply trim_tidy. intros Ht. apply H. by apply trim_nil.
Qed.

(** Every click does exactly one of two things, adding an item or
    showing an alert: the items and alerts together grow by the number
    of clicks. *)
Theorem each_click_adds_or_alerts evs pg :
  length (ListScript.ls (ListScript.run evs pg))
  + length (ListScript.alerts (ListScript.run evs pg)) =
  length (ListScript.ls pg) + length (ListScript.alerts pg)
  + length (filter (λ ev, ListScript.is_click ev = true) evs).
Proof.
  revert pg. induction evs as [|ev evs IH]; intros pg.
  - cbn. lia.
  - cbn [ListScript.run fold_left]. unfold ListScript.run in IH. rewrite IH.
    rewrite filter_cons. destruct ev as [s|]; cbn [ListScript.step].
    + rewrite decide_False by discriminate. cbn. lia.
    + rewrite decide_True by reflexivity. cbn [length].
      destruct (blank_dec (ListScript.input_value pg)) as [H|H].
      * rewrite list_click_blank by assumption. cbn. rewrite length_app. cbn. lia.
      * rewrite list_click_filled by assumption. cbn. rewrite length_app. cbn. lia.
Qed.

(** ** The college list script: the click listener *)

Lemma college_click_blank pg :
  blank (CollegeScript.input_value pg) →
  CollegeScript.ls (CollegeScript.click pg) = CollegeScript.ls pg
  ∧ CollegeScript.myColleges (CollegeScript.click pg) = CollegeScript.myColleges pg.
Proof.
  intros H. apply trim_nil in H. unfold CollegeScript.click. by rewrite H.
Qed.

Lemma college_click_filled pg :
  ¬ blank (CollegeScript.input_value pg) →
  CollegeScript.ls (CollegeScript.click pg) =
    CollegeScript.ls pg ++ [trim (CollegeScript.input_value pg)]
  ∧ CollegeScript.myColleges (CollegeScript.click pg) =
      CollegeScript.myColleges pg ++ [trim (CollegeScript.input_value pg)].
Proof.
  intros H. unfold CollegeScript.click.
  destruct (trim (CollegeScript.input_value pg)) eqn:Ht; [|by split].
  exfalso. apply H. by apply trim_nil.
Qed.

Lemma on_fetch_keeps_lists em fetched pg :
  CollegeScript.ls (CollegeScript.on_fetch em fetched pg) = CollegeScript.ls pg
  ∧ CollegeScript.myColleges (CollegeScript.on_fetch em fetched pg) =
      CollegeScript.myColleges pg.
Proof.
  destruct fetched as [data|error]; cbn [CollegeScript.on_fetch]; [|by split].
  unfold CollegeScript.then_data.
  destruct (CollegeScript.forEach_college em data _) as [[[]|e] sel]; by split.
Qed.

(** [myColleges] mirrors the list on the page: over any sequence of
    edits, clicks and fetch outcomes, the same items, in the same order,
    are added to both, and each is non-empty and trimmed. *)
Theorem myColleges_mirrors_the_list em evs pg :
  ∃ added,
    CollegeScript.ls (CollegeScript.run em evs pg) = CollegeScript.ls pg ++ added
    ∧ CollegeScript.myColleges (CollegeScript.run em evs pg) =
        CollegeScript.myColleges pg ++ added
    ∧ Forall tidy added.
Proof.
  revert pg. induction evs as [|ev evs IH]; intros pg.
  - exists []. rewrite !app_nil_r. repeat split. constructor.
  - cbn [CollegeScript.run fold_left].
    destruct (IH (CollegeScript.step em pg ev)) as (added & Hls & Hmc & Htidy).
    unfold CollegeScript.run in Hls, Hmc. rewrite Hls, Hmc.
    destruct ev as [s| |fetched]; cbn [CollegeScript.step].
    + by exists added.
    + destruct (blank_dec (CollegeScript.input_value pg)) as [H|H].
      * destruct (college_click_blank pg H) as [-> ->]. by exists added.
      * destruct (college_click_filled pg H) as [-> ->].
        exists (trim (CollegeScript.input_value pg) :: added).
        rewrite <- !app_assoc. repeat split.
        constructor; [|assumption].
        apply trim_tidy. intros Ht. apply H. by apply trim_nil.
    + destruct (on_fetch_keeps_lists em fetched pg) as [-> ->]. by exists added.
Qed.

(** ** The college list script: the fetched data *)

Lemma append_options_all em colleges sel :
  Forall (λ c, nullish c = false) colleges →
  CollegeScript.append_options em colleges sel =
    (Normal tt,
     sel ++ map (λ c, CollegeScript.new_option (member c "name")) colleges).
Proof.
  intros H. revert sel. induction H as [|c colleges Hc _ IH]; intros sel.
  - cbn. by rewrite app_nil_r.
  - cbn [CollegeScript.append_options]. unfold get. rewrite Hc.
    rewrite IH. cbn [map]. by rewrite <- app_assoc.
Qed.

Lemma append_options_stops em before bad after sel :
  Forall (λ c, nullish c = false) before →
  nullish bad = true →
  CollegeScript.append_options em (before ++ bad :: after) sel =
    (Throw (TypeError em bad "name"),
     sel ++ map (λ c, CollegeScript.new_option (member c "name")) before).
Proof.
  intros H Hbad. revert sel. induction H as [|c before Hc _ IH]; intros sel.
  - cbn [app CollegeScript.append_options map]. unfold get. rewrite Hbad.
    by rewrite app_nil_r.
  - cbn [app CollegeScript.append_options]. unfold get. rewrite Hc.
    rewrite IH. cbn [map]. by rewrite <- app_assoc.
Qed.

(** When the file holds an array none of whose entries is [null], the
    select gains one option per entry, in the order of the file, after
    the options it already had; the text and the value of each are the
    entry's [name]; the data is logged and no error is. *)
Theorem fetch_appends_one_option_per_entry em colleges pg :
  Forall (λ c, nullish c = false) colleges →
  CollegeScript.on_fetch em (Resolved (VArr colleges)) pg =
    {| CollegeScript.input_value := CollegeScript.input_value pg;
       CollegeScript.ls := CollegeScript.ls pg;
       CollegeScript.myColleges := CollegeScript.myColleges pg;
       CollegeScript.alerts := CollegeScript.alerts pg;
       CollegeScript.collegeSelect :=
         CollegeScript.collegeSelect pg
         ++ map (λ c, CollegeScript.new_option (member c "name")) colleges;
       CollegeScript.console_log := CollegeScript.console_log pg ++ [VArr colleges];
       CollegeScript.console_errors := CollegeScript.console_errors pg |}.
Proof.
  intros H. cbn [CollegeScript.on_fetch]. unfold CollegeScript.then_data.
  cbn [CollegeScript.forEach_college]. by rewrite append_options_all.
Qed.

Lemma fetch_appends_one_option_per_entry_two :
  CollegeScript.collegeSelect
    (CollegeScript.on_fetch sample_wording (Resolved (VArr [mit; yale])) loaded) =
    [ {| CollegeScript.textContent := VStr "MIT"; CollegeScript.option_value := VStr "MIT" |};
      {| CollegeScript.textContent := VStr "Yale"; CollegeScript.option_value := VStr "Yale" |} ].
Proof.
  rewrite (fetch_appends_one_option_per_entry sample_wording [mit; yale] loaded).
  - reflexivity.
  - repeat constructor.
Defined.

(** A [null] entry stops the population where it stands: the entries
    before it have their options, the entries after it never get one,
    and the error is logged once. *)
Theorem null_entry_stops_the_population em before bad after pg :
  Forall (λ c, nullish c = false) before →
  nullish bad = true →
  CollegeScript.on_fetch em (Resolved (VArr (before ++ bad :: after))) pg =
    {| CollegeScript.input_value := CollegeScript.input_value pg;
       CollegeScript.ls := CollegeScript.ls pg;
       CollegeScript.myColleges := CollegeScript.myColleges pg;
       CollegeScript.alerts := CollegeScript.alerts pg;
       CollegeScript.collegeSelect :=
         CollegeScript.collegeSelect pg
         ++ map (λ c, CollegeScript.new_option (member c "name")) before;
       CollegeScript.console_log :=
         CollegeScript.console_log pg ++ [VArr (before ++ bad :: after)];
       CollegeScript.console_errors :=
         CollegeScript.console_errors pg
         ++ [("Error fetching university data:", TypeError em bad "name")] |}.
Proof.
  intros H Hbad. cbn [CollegeScript.on_fetch]. unfold CollegeScript.then_data.
  cbn [CollegeScript.forEach_college]. by rewrite append_options_stops.
Qed.

Lemma null_entry_stops_the_population_middle :
  CollegeScript.collegeSelect
    (CollegeScript.on_fetch sample_wording (Resolved (VArr [mit; VNull; yale])) loaded) =
    [ {| CollegeScript.textContent := VStr "MIT"; CollegeScript.option_value := VStr "MIT" |} ].
Proof.
  pose proof (null_entry_stops_the_population sample_wording [mit] VNull [yale] loaded) as H.
  cbn [app] in H. rewrite H.
  - reflexivity.
  - repeat constructor.
  - reflexivity.
Defined.

(** When the fetch fails, or the file holds anything but an array, the
    select is left as it was and exactly one error is logged. *)
Theorem unusable_fetch_appends_nothing em fetched pg :
  (∀ colleges, fetched ≠ Resolved (VArr colleges)) →
  CollegeScript.collegeSelect (CollegeScript.on_fetch em fetched pg) =
    CollegeScript.collegeSelect pg
  ∧ ∃ e, CollegeScript.console_errors (CollegeScript.on_fetch em fetched pg) =
           CollegeScript.console_errors pg ++ [("Error fetching university data:", e)].
Proof.
  intros H. destruct fetched as [data|error]; cbn [CollegeScript.on_fetch].
  - unfold CollegeScript.then_data.
    destruct data; cbn [CollegeScript.forEach_college CollegeScript.catch_fetch
                        CollegeScript.collegeSelect CollegeScript.console_errors];
      try (split; [reflexivity | eexists; reflexivity]).
    exfalso. by eapply H.
  - split; [reflexivity | eexists; reflexivity].
Qed.

Lemma unusable_fetch_appends_nothing_wrapped :
  CollegeScript.collegeSelect
    (CollegeScript.on_fetch sample_wording
       (Resolved (VObj {[ "colleges" := VArr [mit; yale] ]})) loaded) = [].
Proof.
  apply (proj1 (unusable_fetch_appends_nothing sample_wording
                  (Resolved (VObj {[ "colleges" := VArr [mit; yale] ]})) loaded
                  ltac:(discriminate))).
Defined.

(** The two parts of the script do not interfere: a click and the
    settling of the fetch give the same page in either order. *)
Theorem click_and_fetch_commute em fetched pg :
  CollegeScript.on_fetch em fetched (CollegeScript.click pg) =
  CollegeScript.click (CollegeScript.on_fetch em fetched pg).
Proof.
  unfold CollegeScript.click.
  destruct fetched as [data|error]; cbn [CollegeScript.on_fetch].
  - unfold CollegeScript.then_data.
    destruct (trim (CollegeScript.input_value pg)) eqn:Ht;
      cbn [CollegeScript.collegeSelect];
      destruct (CollegeScript.forEach_college em data _) as [[[]|e] sel];
      cbn -[trim]; rewrite ?Ht; reflexivity.
  - destruct (trim (CollegeScript.input_value pg)) eqn:Ht;
      cbn -[trim]; rewrite ?Ht; reflexivity.
Qed.
